(** * Session synchronisation of the AuthProvider component

    A shallow embedding of [components/auth/AuthProvider.tsx] together with
    the two collaborators it calls, [lib/supabase/auth.ts] ([getUser],
    [onAuthStateChange]) and [lib/analytics.ts] ([analytics.identify],
    [analytics.reset]).

    The component owns two React state cells ([user], [isLoading]).  Its mount
    effect registers a continuation on the one-shot fetch, opens the push
    subscription and hands the unsubscribe function back to React as cleanup.
    The event loop delivers one completion at a time, so the component is
    modelled as a state record and a step function over the events the page
    can receive.

    The remaining functions of the same files are embedded as well: the
    request wrappers [getSiteOrigin], [signInWithGoogle], [signOut] and
    [getSession], and the effect of [PostHogProvider]. *)

From stdpp Require Import gmap strings list.

Open Scope string_scope.
Open Scope list_scope.

(* ===================================================================== *)
(** ** JavaScript values found in [user_metadata] *)
(* ===================================================================== *)

(** [user_metadata] is an object decoded from the provider's JSON, read with
    dynamic keys.  Its values are JSON values; a missing key reads as
    [undefined].  Arrays and objects only matter here through their
    truthiness, so they are kept as opaque references. *)
Inductive jsval : Type :=
| JUndefined
| JNull
| JBool (b : bool)
| JNum (n : Z)
| JStr (s : string)
| JObj (ref : nat).

(** JavaScript's ToBoolean. *)
Definition truthy (v : jsval) : bool :=
  match v with
  | JUndefined | JNull => false
  | JBool b => b
  | JNum n => negb (n =? 0)%Z
  | JStr s => negb (String.eqb s "")
  | JObj _ => true
  end.

(** [a || b] *)
Definition js_or (a b : jsval) : jsval := if truthy a then a else b.

(** [o?.k] on an object that may be [null] or [undefined]. *)
Definition opt_get (o : option (gmap string jsval)) (k : string) : jsval :=
  match o with
  | None => JUndefined
  | Some m => default JUndefined (m !! k)
  end.

(* ===================================================================== *)
(** ** Data model *)
(* ===================================================================== *)

(** The fields of supabase's [User] that the component reads. *)
Record User : Type := {
  id : string;
  email : option string;
  user_metadata : option (gmap string jsval);
}.

(** The second argument of [analytics.identify]. *)
Record Traits : Type := {
  traits_email : option string;
  traits_name : jsval;
}.

(** Calls received by the [analytics] object, the side-effect sink. *)
Inductive analytics_call : Type :=
| identify (userId : string) (traits : Traits)
| reset.

(** [interface AuthContextType] *)
Record AuthContextType : Type := {
  user : option User;
  isLoading : bool;
}.

(** One [AuthProvider] instance: its two state cells as React keeps them,
    whether the [then] continuation of the one-shot fetch is still waiting,
    whether the push subscription is held, and the calls made to the sink so
    far (oldest first). *)
Record Store : Type := {
  state : AuthContextType;
  fetch_pending : bool;
  subscription : bool;
  sink : list analytics_call;
}.

(** The object literal [{ email: user.email, name: full_name || name }]. *)
Definition traits_of (u : User) : Traits :=
  {| traits_email := email u;
     traits_name := js_or (opt_get (user_metadata u) "full_name")
                          (opt_get (user_metadata u) "name") |}.

(* ===================================================================== *)
(** ** Effects of the callbacks: a state monad over [Store] *)
(* ===================================================================== *)

Definition M (A : Type) : Type := Store → A * Store.

#[export] Instance M_ret : MRet M := λ A a s, (a, s).
#[export] Instance M_bind : MBind M :=
  λ A B f m s, let '(a, s') := m s in f a s'.

Definition exec {A : Type} (m : M A) (s : Store) : Store := (m s).2.

(** The setter returned by [useState<User | null>]. *)
Definition setUser (u : option User) : M unit :=
  λ s, (tt, {| state := {| user := u; isLoading := isLoading (state s) |};
               fetch_pending := fetch_pending s;
               subscription := subscription s;
               sink := sink s |}).

(** The setter returned by [useState(true)]. *)
Definition setIsLoading (b : bool) : M unit :=
  λ s, (tt, {| state := {| user := user (state s); isLoading := b |};
               fetch_pending := fetch_pending s;
               subscription := subscription s;
               sink := sink s |}).

Definition call_sink (c : analytics_call) : M unit :=
  λ s, (tt, {| state := state s;
               fetch_pending := fetch_pending s;
               subscription := subscription s;
               sink := sink s ++ [c] |}).

(** [analytics.identify(userId, traits)] *)
Definition analytics_identify (userId : string) (traits : Traits) : M unit :=
  call_sink (identify userId traits).

(** [analytics.reset()] *)
Definition analytics_reset : M unit := call_sink reset.

Definition set_fetch_pending (b : bool) : M unit :=
  λ s, (tt, {| state := state s;
               fetch_pending := b;
               subscription := subscription s;
               sink := sink s |}).

Definition set_subscription (b : bool) : M unit :=
  λ s, (tt, {| state := state s;
               fetch_pending := fetch_pending s;
               subscription := b;
               sink := sink s |}).

(** The continuation passed to [getUser().then(...)]: no [else] branch. *)
Definition on_fetched (u : option User) : M unit :=
  setUser u ;;
  setIsLoading false ;;
  match u with
  | Some usr => analytics_identify (id usr) (traits_of usr)
  | None => mret tt
  end.

(** The callback passed to [onAuthStateChange(...)]. *)
Definition on_auth_change (u : option User) : M unit :=
  setUser u ;;
  setIsLoading false ;;
  match u with
  | Some usr => analytics_identify (id usr) (traits_of usr)
  | None => analytics_reset
  end.

(* ===================================================================== *)
(** ** The session source, [lib/supabase/auth.ts] *)
(* ===================================================================== *)

(** How a promise settles. *)
Inductive settled (A : Type) : Type :=
| Fulfilled (value : A)
| Rejected (reason : string).
Arguments Fulfilled {A} value.
Arguments Rejected {A} reason.

(** What [supabase.auth.getUser()] resolves with: [{ data: { user }, error }]. *)
Record UserResponse : Type := {
  data_user : option User;
  error : option string;
}.

(** [async function getUser()]: destructures [data.user], never looks at
    [error]; a rejection of the awaited promise rejects [getUser()] too. *)
Definition getUser (r : settled UserResponse) : settled (option User) :=
  match r with
  | Fulfilled resp => Fulfilled (data_user resp)
  | Rejected e => Rejected e
  end.

(** [promise.then(k)] with a fulfilment handler only: a rejection runs
    nothing. *)
Definition then_ {A : Type} (p : settled A) (k : A → M unit) : M unit :=
  match p with
  | Fulfilled v => k v
  | Rejected _ => mret tt
  end.

(** The [session] argument supabase passes to the auth listener. *)
Record Session : Type := {
  session_user : User;
}.

(** [session?.user || null], the value [onAuthStateChange] forwards to its
    callback. *)
Definition forwarded_user (session : option Session) : option User :=
  match session with
  | Some ss => Some (session_user ss)
  | None => None
  end.

(* ===================================================================== *)
(** ** Mounting, events and the step function *)
(* ===================================================================== *)

(** Result of running a synchronous function. *)
Inductive outcome (A : Type) : Type :=
| Returned (a : A)
| Threw (e : string).
Arguments Returned {A} a.
Arguments Threw {A} e.

(** The function the effect returns, [() => subscription.unsubscribe()]. *)
Inductive Cleanup : Type := unsubscribe.

(** The session source as the mount effect meets it: whether opening the
    push subscription throws. *)
Record Source : Type := {
  subscribe_throws : option string;
}.

(** [useState<User | null>(null)], [useState(true)], nothing registered. *)
Definition initial : Store :=
  {| state := {| user := None; isLoading := true |};
     fetch_pending := false;
     subscription := false;
     sink := [] |}.

(** The body of [useEffect(() => { ... }, [])].  [getUser().then(...)] comes
    first; [onAuthStateChange(...)] is not wrapped in [try]. *)
Definition useEffect_body (src : Source) : M (outcome Cleanup) :=
  set_fetch_pending true ;;
  match subscribe_throws src with
  | Some e => mret (Threw e)
  | None => set_subscription true ;; mret (Returned unsubscribe)
  end.

Definition mount (src : Source) : outcome Cleanup * Store :=
  useEffect_body src initial.

(** A source whose subscription opens normally, and the store it yields. *)
Definition healthy : Source := {| subscribe_throws := None |}.
Definition fresh : Store := (mount healthy).2.

(** What the event loop can deliver to a mounted component. *)
Inductive event : Type :=
| FetchSettled (r : settled UserResponse)
| AuthStateChange (session : option Session)
| Unmount.

(** The provider is mounted exactly while it holds its subscription: a
    successful effect opens it, the cleanup React runs at unmount releases it,
    and an effect that threw opened none and leaves React to unmount the
    provider. *)
Definition mounted (s : Store) : bool := subscription s.

(** React applies the setters of a mounted component and ignores those of a
    component that is no longer mounted; calls on other objects happen either
    way.  [commit before after] is the store a callback leaves when it ran
    from [before] and computed [after]. *)
Definition commit (before after : Store) : Store :=
  if mounted before
  then after
  else {| state := state before;
          fetch_pending := fetch_pending after;
          subscription := subscription after;
          sink := sink after |}.

(** The one-shot fetch settles once, and its continuation has no guard: it
    runs whether or not the provider is still mounted.  The listener is
    called only while the subscription is held.  Unmounting runs the cleanup,
    which releases the subscription and nothing else. *)
Definition step (s : Store) (e : event) : Store :=
  match e with
  | FetchSettled r =>
      if fetch_pending s
      then commit s
             (exec (set_fetch_pending false ;; then_ (getUser r) on_fetched) s)
      else s
  | AuthStateChange session =>
      if subscription s
      then exec (on_auth_change (forwarded_user session)) s
      else s
  | Unmount => exec (set_subscription false) s
  end.

Definition run (s : Store) (es : list event) : Store := foldl step s es.

(* ===================================================================== *)
(** ** The reader-facing view *)
(* ===================================================================== *)

(** [createContext<AuthContextType>({ user: null, isLoading: true })] *)
Definition AuthContext : AuthContextType := {| user := None; isLoading := true |}.

(** [useContext]: the value of the nearest enclosing provider (innermost
    first), or the context's default when there is none. *)
Definition useContext {A : Type} (default_value : A) (providers : list A) : A :=
  match providers with
  | v :: _ => v
  | [] => default_value
  end.

(** [export function useAuth()] *)
Definition useAuth (providers : list AuthContextType) : AuthContextType :=
  useContext AuthContext providers.

(** [<AuthContext.Provider value={{ user, isLoading }}>] *)
Definition provided (s : Store) : AuthContextType :=
  {| user := user (state s); isLoading := isLoading (state s) |}.

(** The specification's three-valued reading of the two cells. *)
Inductive SessionValue : Type :=
| Unknown
| Absent
| Present (u : User).

(** The reader surface [{ identity, resolved }]: [identity] is [user] and
    [resolved] is the negation of [isLoading]. *)
Definition ctx_resolved (v : AuthContextType) : bool := negb (isLoading v).

Definition resolved (s : Store) : bool := ctx_resolved (provided s).

Definition session_value (s : Store) : SessionValue :=
  if isLoading (state s) then Unknown
  else match user (state s) with
       | Some u => Present u
       | None => Absent
       end.

(* ===================================================================== *)
(** ** Vocabulary of the specification *)
(* ===================================================================== *)

(** A completion: the fetch promise fulfilled with a response, or one call
    of the auth listener. *)
Inductive completion : Type :=
| FetchResult (r : UserResponse)
| PushNotification (session : option Session).

Definition deliver (c : completion) : event :=
  match c with
  | FetchResult r => FetchSettled (Fulfilled r)
  | PushNotification session => AuthStateChange session
  end.

(** The identity a completion carries, if any. *)
Definition identity_of (c : completion) : option User :=
  match c with
  | FetchResult r => data_user r
  | PushNotification session => forwarded_user session
  end.

(** Whether a completion reaches its callback: a fetch result while the
    continuation is waiting, a push notification while the subscription is
    held. *)
Definition handled (s : Store) (c : completion) : bool :=
  match c with
  | FetchResult _ => fetch_pending s
  | PushNotification _ => subscription s
  end.

(** The sink call a delivered push notification makes. *)
Definition push_dispatch (session : option Session) : analytics_call :=
  match forwarded_user session with
  | Some u => identify (id u) (traits_of u)
  | None => reset
  end.

(** The sink calls a fulfilled fetch makes. *)
Definition fetch_dispatch (u : option User) : list analytics_call :=
  match u with
  | Some usr => [identify (id usr) (traits_of usr)]
  | None => []
  end.

(** How the one-shot fetch settles within a sequence of events: its first
    settlement, a promise settling once. *)
Fixpoint first_settlement (es : list event) : option (settled UserResponse) :=
  match es with
  | [] => None
  | FetchSettled r :: _ => Some r
  | _ :: es' => first_settlement es'
  end.

(** The sink calls of a fetch that settles within [es]: [identify] when it
    fulfils with an identity, nothing when it fulfils without one, rejects,
    or does not settle. *)
Definition late_fetch_dispatch (es : list event) : list analytics_call :=
  match first_settlement es with
  | Some (Fulfilled r) => fetch_dispatch (data_user r)
  | Some (Rejected _) | None => []
  end.

(** The sink calls one event causes, as a function of the event and of the
    two registrations only: the state cells are not consulted. *)
Definition dispatched (pending subscribed : bool) (e : event)
  : list analytics_call :=
  match e with
  | FetchSettled (Fulfilled r) =>
      if pending then fetch_dispatch (data_user r) else []
  | FetchSettled (Rejected _) => []
  | AuthStateChange session =>
      if subscribed then [push_dispatch session] else []
  | Unmount => []
  end.

(** The [name] trait in the words of the specification: [full_name] when
    that field is present and truthy, otherwise [name], which may be
    [undefined]. *)
Definition spec_name (u : User) : jsval :=
  match user_metadata u with
  | Some md =>
      match md !! "full_name" with
      | Some v => if truthy v then v else default JUndefined (md !! "name")
      | None => default JUndefined (md !! "name")
      end
  | None => JUndefined
  end.

Definition spec_traits (u : User) : Traits :=
  {| traits_email := email u; traits_name := spec_name u |}.

Definition is_reset (c : analytics_call) : bool :=
  match c with
  | reset => true
  | identify _ _ => false
  end.

(** How many times [analytics.reset()] was called. *)
Definition count_reset (cs : list analytics_call) : nat :=
  length (List.filter is_reset cs).

(** Whether running a function ended in an uncaught exception. *)
Definition crashed {A : Type} (o : outcome A) : bool :=
  match o with
  | Returned _ => false
  | Threw _ => true
  end.

(* ===================================================================== *)
(** ** Sample data *)
(* ===================================================================== *)

(** The identity [{ id: "u1" }] of the specification's scenarios. *)
Definition u1 : User :=
  {| id := "u1"; email := None; user_metadata := None |}.

Definition alice : User :=
  {| id := "a1"; email := Some "alice@example.com";
     user_metadata := Some {[ "full_name" := JStr "Alice A." ]} |}.

Definition bob : User :=
  {| id := "u2"; email := None;
     user_metadata := Some {[ "full_name" := JStr ""; "name" := JStr "bob" ]} |}.

Definition signed_in (u : User) : option Session :=
  Some {| session_user := u |}.

Definition no_user : UserResponse := {| data_user := None; error := None |}.

Definition found (u : User) : UserResponse :=
  {| data_user := Some u; error := None |}.

Definition failing (e : string) : Source := {| subscribe_throws := Some e |}.

(* ===================================================================== *)
(** ** The request wrappers of [lib/supabase/auth.ts] *)
(* ===================================================================== *)

(** A [string | undefined] as [if (x)] and [x || y] see it: the string when
    it is truthy (defined and not empty), nothing otherwise. *)
Definition truthy_string (o : option string) : option string :=
  match o with
  | Some s => if String.eqb s "" then None else Some s
  | None => None
  end.

(** What [getSiteOrigin] reads: the environment variable, and
    [window.location.origin] when there is a [window] ([None] on the
    server). *)
Record Env : Type := {
  NEXT_PUBLIC_SITE_URL : option string;
  window_location_origin : option string;
}.

(** Evaluating the identifier [window] where none is defined. *)
Definition ReferenceError : string := "ReferenceError: window is not defined".

(** [export function getSiteOrigin(): string] *)
Definition getSiteOrigin (env : Env) : outcome string :=
  match truthy_string (NEXT_PUBLIC_SITE_URL env) with
  | Some url => Returned url
  | None =>
      match window_location_origin env with
      | Some origin => Returned origin
      | None => Threw ReferenceError
      end
  end.

(** The argument of [supabase.auth.signInWithOAuth]. *)
Record OAuthRequest : Type := {
  provider : string;
  options_redirectTo : string;
}.

(** [{ data, error }] as the auth client resolves it; the error object is
    identified by its message and, being an object, is truthy whatever the
    message. *)
Record AuthResponse (D : Type) : Type := {
  resp_data : D;
  resp_error : option string;
}.
Arguments resp_data {D} _.
Arguments resp_error {D} _.

(** What an [async] wrapper did: the lines written with [console.error]
    (label and error) and how its promise settled. *)
Record Ran (A : Type) : Type := {
  console_error : list (string * string);
  result : settled A;
}.
Arguments console_error {A} _.
Arguments result {A} _.

(** [redirectTo || `${origin}/auth/callback`] *)
Definition redirect_target (redirectTo : option string) (origin : string)
  : string :=
  match truthy_string redirectTo with
  | Some r => r
  | None => String.append origin "/auth/callback"
  end.

(** The request [signInWithGoogle] builds.  [getSiteOrigin()] is evaluated
    before [redirectTo] is looked at. *)
Definition oauth_request (env : Env) (redirectTo : option string)
  : outcome OAuthRequest :=
  match getSiteOrigin env with
  | Threw e => Threw e
  | Returned origin =>
      Returned {| provider := "google";
                  options_redirectTo := redirect_target redirectTo origin |}
  end.

(** [export async function signInWithGoogle(redirectTo?: string)], given how
    the auth client answers a request. *)
Definition signInWithGoogle {D : Type} (env : Env) (redirectTo : option string)
    (signInWithOAuth : OAuthRequest → settled (AuthResponse D)) : Ran D :=
  match oauth_request env redirectTo with
  | Threw e => {| console_error := []; result := Rejected e |}
  | Returned req =>
      match signInWithOAuth req with
      | Rejected e => {| console_error := []; result := Rejected e |}
      | Fulfilled resp =>
          match resp_error resp with
          | Some err => {| console_error := [("Sign in error:", err)];
                           result := Rejected err |}
          | None => {| console_error := []; result := Fulfilled (resp_data resp) |}
          end
      end
  end.

(** [export async function signOut()], given how [supabase.auth.signOut()]
    settles. *)
Definition signOut (r : settled (AuthResponse unit)) : Ran unit :=
  match r with
  | Rejected e => {| console_error := []; result := Rejected e |}
  | Fulfilled resp =>
      match resp_error resp with
      | Some err => {| console_error := [("Sign out error:", err)];
                       result := Rejected err |}
      | None => {| console_error := []; result := Fulfilled tt |}
      end
  end.

(** [export async function getSession()]: returns [data.session], never
    looks at [error]. *)
Definition getSession (r : settled (AuthResponse (option Session)))
  : settled (option Session) :=
  match r with
  | Fulfilled resp => Fulfilled (resp_data resp)
  | Rejected e => Rejected e
  end.

(* ===================================================================== *)
(** ** [PostHogProvider] *)
(* ===================================================================== *)

(** The options [PostHogProvider] passes to [posthog.init]. *)
Record PostHogConfig : Type := {
  api_host : string;
  capture_pageview : bool;
  capture_pageleave : bool;
  person_profiles : string;
  disable_session_recording : bool;
  session_recording_maskAllInputs : bool;
  session_recording_maskTextSelector : string;
}.

(** Calls received by the [posthog] client. *)
Inductive posthog_call : Type :=
| ph_init (key : string) (config : PostHogConfig)
| ph_capture (event : string) (properties : option (gmap string jsval))
| ph_identify (userId : string) (traits : option Traits)
| ph_reset.

(** What the effect of [PostHogProvider] reads. *)
Record PostHogEnv : Type := {
  has_window : bool;
  NEXT_PUBLIC_POSTHOG_KEY : option string;
  NEXT_PUBLIC_POSTHOG_HOST : option string;
}.

(** What the effect of [PostHogProvider] did: the calls on [posthog] and
    whether [window.posthog] was assigned. *)
Record PostHogMounted : Type := {
  posthog_calls : list posthog_call;
  window_posthog : bool;
}.

(** [process.env.NEXT_PUBLIC_POSTHOG_HOST || 'https://us.i.posthog.com'] *)
Definition posthog_host (host : option string) : string :=
  match truthy_string host with
  | Some h => h
  | None => "https://us.i.posthog.com"
  end.

(** The body of the effect of [PostHogProvider]. *)
Definition PostHogProvider_effect (env : PostHogEnv) : PostHogMounted :=
  match (if has_window env
         then truthy_string (NEXT_PUBLIC_POSTHOG_KEY env)
         else None) with
  | Some key =>
      {| posthog_calls :=
           [ph_init key
              {| api_host := posthog_host (NEXT_PUBLIC_POSTHOG_HOST env);
                 capture_pageview := true;
                 capture_pageleave := true;
                 person_profiles := "always";
                 disable_session_recording := false;
                 session_recording_maskAllInputs := false;
                 session_recording_maskTextSelector := "[data-ph-mask]" |}];
         window_posthog := true |}
  | None => {| posthog_calls := []; window_posthog := false |}
  end.

(* ===================================================================== *)
(** ** Counting events *)
(* ===================================================================== *)

Definition is_push (e : event) : bool :=
  match e with
  | AuthStateChange _ => true
  | _ => false
  end.

Definition is_null_push (e : event) : bool :=
  match e with
  | AuthStateChange None => true
  | _ => false
  end.

Definition is_unmount (e : event) : bool :=
  match e with
  | Unmount => true
  | _ => false
  end.

Definition count_events (p : event → bool) (es : list event) : nat :=
  length (List.filter p es).

(** The sink call that matches a value of the [user] cell. *)
Definition matching_call (u : option User) : analytics_call :=
  match u with
  | Some usr => identify (id usr) (traits_of usr)
  | None => reset
  end.

Definition browser : Env :=
  {| NEXT_PUBLIC_SITE_URL := None;
     window_location_origin := Some "http://localhost:3000" |}.

Definition server : Env :=
  {| NEXT_PUBLIC_SITE_URL := None; window_location_origin := None |}.

(* ===================================================================== *)
(** ** What the two callbacks do to a store *)
(* ===================================================================== *)

Lemma exec_on_fetched (s : Store) (u : option User) :
  exec (on_fetched u) s =
  {| state := {| user := u; isLoading := false |};
     fetch_pending := fetch_pending s;
     subscription := subscription s;
     sink := sink s ++ fetch_dispatch u |}.
Proof.
  destruct u as [usr|]; unfold exec, on_fetched; cbn.
  - reflexivity.
  - by rewrite app_nil_r.
Qed.

Lemma exec_on_auth_change (s : Store) (session : option Session) :
  exec (on_auth_change (forwarded_user session)) s =
  {| state := {| user := forwarded_user session; isLoading := false |};
     fetch_pending := fetch_pending s;
     subscription := subscription s;
     sink := sink s ++ [push_dispatch session] |}.
Proof. unfold push_dispatch. by destruct session as [ss|]. Qed.

Lemma step_push (s : Store) (session : option Session) :
  subscription s = true →
  step s (AuthStateChange session) =
  {| state := {| user := forwarded_user session; isLoading := false |};
     fetch_pending := fetch_pending s;
     subscription := true;
     sink := sink s ++ [push_dispatch session] |}.
Proof.
  intros Hsub. cbn [step]. rewrite Hsub, exec_on_auth_change. by rewrite Hsub.
Qed.

Lemma step_push_released (s : Store) (session : option Session) :
  subscription s = false → step s (AuthStateChange session) = s.
Proof. intros Hsub. cbn [step]. by rewrite Hsub. Qed.

Lemma step_fetch_fulfilled (s : Store) (r : UserResponse) :
  fetch_pending s = true →
  step s (FetchSettled (Fulfilled r)) =
  {| state := if subscription s
              then {| user := data_user r; isLoading := false |}
              else state s;
     fetch_pending := false;
     subscription := subscription s;
     sink := sink s ++ fetch_dispatch (data_user r) |}.
Proof.
  intros Hp. cbn [step]. rewrite Hp.
  change (exec (set_fetch_pending false ;; then_ (getUser (Fulfilled r)) on_fetched) s)
    with (exec (on_fetched (data_user r)) (exec (set_fetch_pending false) s)).
  rewrite exec_on_fetched. unfold commit, mounted. cbn.
  destruct (subscription s) eqn:Hsub; cbn; by rewrite ?Hsub.
Qed.

Lemma step_fetch_rejected (s : Store) (e : string) :
  step s (FetchSettled (Rejected e)) =
  {| state := state s;
     fetch_pending := false;
     subscription := subscription s;
     sink := sink s |}.
Proof.
  cbn [step]. destruct s as [st p sub sk]; cbn.
  destruct p; [|done]. unfold commit, mounted. cbn. by destruct sub.
Qed.

Lemma step_fetch_settled_twice (s : Store) (r : settled UserResponse) :
  fetch_pending s = false → step s (FetchSettled r) = s.
Proof. intros Hp. cbn [step]. by rewrite Hp. Qed.

Lemma step_unmount (s : Store) :
  step s Unmount =
  {| state := state s;
     fetch_pending := fetch_pending s;
     subscription := false;
     sink := sink s |}.
Proof. reflexivity. Qed.

Lemma run_app (s : Store) (es fs : list event) :
  run s (es ++ fs) = run (run s es) fs.
Proof. apply foldl_app. Qed.

(** The sink calls of one step depend on the event and on the two
    registrations, never on the state cells. *)
Lemma sink_step (s : Store) (e : event) :
  sink (step s e) = sink s ++ dispatched (fetch_pending s) (subscription s) e.
Proof.
  destruct e as [[r|err]|session|].
  - destruct (fetch_pending s) eqn:Hp.
    + by rewrite step_fetch_fulfilled.
    + rewrite step_fetch_settled_twice by done. cbn. by rewrite app_nil_r.
  - rewrite step_fetch_rejected. cbn. by rewrite app_nil_r.
  - destruct (subscription s) eqn:Hsub.
    + by rewrite step_push.
    + rewrite step_push_released by done. cbn. by rewrite app_nil_r.
  - cbn. by rewrite app_nil_r.
Qed.

(** [isLoading] is only ever set to [false]. *)
Lemma resolved_step (s : Store) (e : event) :
  resolved s = true → resolved (step s e) = true.
Proof.
  unfold resolved, ctx_resolved. cbn [provided isLoading]. intros Hr.
  destruct e as [[r|err]|session|].
  - destruct (fetch_pending s) eqn:Hp.
    + rewrite step_fetch_fulfilled by done. cbn [state].
      by destruct (subscription s).
    + by rewrite step_fetch_settled_twice.
  - by rewrite step_fetch_rejected.
  - destruct (subscription s) eqn:Hsub.
    + by rewrite step_push.
    + by rewrite step_push_released.
  - done.
Qed.

Lemma resolved_run (es : list event) (s : Store) :
  resolved s = true → resolved (run s es) = true.
Proof.
  revert s. induction es as [|e es IH]; intros s Hr; [done|].
  cbn. apply IH. by apply resolved_step.
Qed.

Lemma subscription_step_completion (s : Store) (c : completion) :
  subscription (step s (deliver c)) = subscription s.
Proof.
  destruct c as [r|session]; cbn [deliver].
  - destruct (fetch_pending s) eqn:Hp.
    + by rewrite step_fetch_fulfilled.
    + by rewrite step_fetch_settled_twice.
  - destruct (subscription s) eqn:Hsub.
    + by rewrite step_push.
    + by rewrite step_push_released.
Qed.

Lemma run_pushes (ps : list (option Session)) (s : Store) :
  subscription s = true →
  sink (run s (AuthStateChange <$> ps)) = sink s ++ (push_dispatch <$> ps)
  ∧ subscription (run s (AuthStateChange <$> ps)) = true.
Proof.
  revert s. induction ps as [|p ps IH]; intros s Hsub.
  - cbn. by rewrite app_nil_r.
  - cbn [fmap list_fmap run foldl].
    change (foldl step (step s (AuthStateChange p)) (AuthStateChange <$> ps))
      with (run (step s (AuthStateChange p)) (AuthStateChange <$> ps)).
    destruct (IH (step s (AuthStateChange p))) as [Hs Hk].
    + by rewrite step_push.
    + split; [|done]. rewrite Hs, step_push by done. cbn.
      by rewrite <- app_assoc.
Qed.

(** The code's [full_name || name] is the specification's [name] trait. *)
Lemma traits_of_spec (u : User) : traits_of u = spec_traits u.
Proof.
  unfold traits_of, spec_traits, spec_name, js_or, opt_get. f_equal.
  destruct (user_metadata u) as [md|]; [|done].
  destruct (md !! "full_name") as [v|]; cbn; [|done].
  by destruct (truthy v).
Qed.

Lemma resolved_not_unknown (s : Store) :
  resolved s = true → session_value s ≠ Unknown.
Proof.
  unfold resolved, ctx_resolved, session_value. cbn [provided isLoading].
  destruct (isLoading (state s)); cbn; [discriminate|].
  intros _. by destruct (user (state s)).
Qed.

Lemma resolved_first_completion (c : completion) :
  resolved (step fresh (deliver c)) = true.
Proof.
  destruct c as [r|session]; cbn [deliver].
  - by rewrite step_fetch_fulfilled.
  - by rewrite step_push.
Qed.

(** Without a subscription the state cells are never written again, and the
    only sink calls left are those of the outstanding fetch. *)
Lemma late_run (es : list event) (s : Store) :
  subscription s = false →
  subscription (run s es) = false
  ∧ state (run s es) = state s
  ∧ sink (run s es)
    = sink s ++ (if fetch_pending s then late_fetch_dispatch es else []).
Proof.
  revert s. induction es as [|e es IH]; intros s Hsub.
  - cbn. split; [done|]. split; [done|].
    destruct (fetch_pending s); by rewrite app_nil_r.
  - change (run s (e :: es)) with (run (step s e) es).
    destruct e as [[r|err]|session|].
    + destruct (fetch_pending s) eqn:Hp.
      * destruct (IH (step s (FetchSettled (Fulfilled r)))) as (H1 & H2 & H3).
        { by rewrite step_fetch_fulfilled. }
        rewrite H1, H2, H3. rewrite step_fetch_fulfilled by done.
        cbn [state sink fetch_pending]. by rewrite Hsub, app_nil_r.
      * rewrite step_fetch_settled_twice by done.
        destruct (IH s Hsub) as (H1 & H2 & H3). by rewrite Hp in H3.
    + destruct (IH (step s (FetchSettled (Rejected err)))) as (H1 & H2 & H3).
      { by rewrite step_fetch_rejected. }
      rewrite H1, H2, H3. rewrite step_fetch_rejected.
      cbn [state sink fetch_pending]. by destruct (fetch_pending s).
    + rewrite step_push_released by done. apply (IH s Hsub).
    + destruct (IH (step s Unmount)) as (H1 & H2 & H3); [done|].
      by rewrite H1, H2, H3.
Qed.

(* ===================================================================== *)
(** ** Dispatch to the sink *)
(* ===================================================================== *)

(** C1, as the specification words it, fails: two consecutive push
    notifications that both carry the identity [alice] each call
    [analytics.identify], so the pair invokes the sink twice, not once. *)
Lemma repeated_identity_dispatches_twice :
  sink (run fresh [AuthStateChange (signed_in alice);
                   AuthStateChange (signed_in alice)])
  = [identify "a1" (traits_of alice); identify "a1" (traits_of alice)]
  ∧ length (sink (run fresh [AuthStateChange (signed_in alice);
                             AuthStateChange (signed_in alice)])) ≠ 1.
Proof. split; [reflexivity | vm_compute; discriminate]. Qed.

(** C1 (amended): dispatch does not look at the previous classification.
    The sink calls of any single event are determined by the event and by
    which registrations are live; in particular a store holding its
    subscription makes exactly one sink call for every push notification of a
    sequence, [identify] when it carries an identity and [reset] when it
    carries none. *)
Theorem dispatch_on_every_push (s : Store) (ps : list (option Session)) :
  subscription s = true →
  (∀ e, sink (step s e) = sink s ++ dispatched (fetch_pending s) true e)
  ∧ sink (run s (AuthStateChange <$> ps)) = sink s ++ (push_dispatch <$> ps)
  ∧ length (sink (run s (AuthStateChange <$> ps)))
    = length (sink s) + length ps.
Proof.
  intros Hsub. split; [|split].
  - intros e. by rewrite sink_step, Hsub.
  - by apply run_pushes.
  - destruct (run_pushes ps s Hsub) as [-> _].
    by rewrite length_app, length_fmap.
Qed.

Lemma dispatch_on_every_push_witness :
  subscription fresh = true
  ∧ sink (run fresh (AuthStateChange <$> [signed_in alice; signed_in alice]))
    = sink fresh ++ (push_dispatch <$> [signed_in alice; signed_in alice]).
Proof.
  split; [reflexivity|].
  apply (dispatch_on_every_push fresh [signed_in alice; signed_in alice]).
  reflexivity.
Defined.

(** C2, as the specification words it, fails: when the fetch resolves with
    no identity the continuation has no [else] branch, so [analytics.reset]
    is not called at all. *)
Lemma fetch_null_never_clears :
  sink (run fresh [FetchSettled (Fulfilled no_user)]) = []
  ∧ count_reset (sink (run fresh [FetchSettled (Fulfilled no_user)])) ≠ 1.
Proof. split; [reflexivity | vm_compute; discriminate]. Qed.

(** C2 (amended): if the fetch completes with no identity and no push
    notification fires, the final state is Absent with resolved = true and
    the sink receives no call.  The first completion makes a sink call when
    it is a push notification or carries an identity, and none when it is a
    fetch result without identity. *)
Theorem fetch_null_resolves_silently (err : option string) (c : completion) :
  let s := run fresh [FetchSettled (Fulfilled {| data_user := None; error := err |})] in
  session_value s = Absent
  ∧ resolved s = true
  ∧ sink s = []
  ∧ sink (step fresh (deliver c))
    = match c with
      | FetchResult r => fetch_dispatch (data_user r)
      | PushNotification session => [push_dispatch session]
      end.
Proof.
  cbn zeta. repeat split.
  destruct c as [r|session]; cbn [deliver].
  - by rewrite step_fetch_fulfilled.
  - by rewrite step_push.
Qed.



(* ===================================================================== *)
(** ** Teardown *)
(* ===================================================================== *)

(** C4, as the specification words it, fails: a fetch that fulfils with an
    identity after the component was unmounted still calls
    [analytics.identify]; the continuation carries no guard. *)
Lemma late_fetch_still_identifies :
  sink (run fresh [Unmount; FetchSettled (Fulfilled (found alice))])
  = [identify "a1" (traits_of alice)]
  ∧ sink (run fresh [Unmount; FetchSettled (Fulfilled (found alice))])
    ≠ sink (run fresh [Unmount]).
Proof. split; [reflexivity | vm_compute; discriminate]. Qed.

(** C4 (amended): after teardown no push notification is handled and the
    state is never written again, whatever arrives: pushes change nothing, and
    a fetch completion that arrives after teardown mutates no state.  The late
    fetch is not discarded, though: its continuation has no guard, so it makes
    no sink call when it carries no identity and still calls [identify] when
    it carries one.  That is the only sink call possible after teardown. *)
Theorem teardown_stops_pushes_only
    (s : Store) (ps : list (option Session)) (es : list event) :
  let s' := step s Unmount in
  run s' (AuthStateChange <$> ps) = s'
  ∧ state (run s' es) = state s'
  ∧ sink (run s' es)
    = sink s' ++ (if fetch_pending s then late_fetch_dispatch es else []).
Proof.
  cbn zeta. split.
  - induction ps as [|p ps IH]; [done|].
    cbn [fmap list_fmap run foldl]. by rewrite step_push_released.
  - by destruct (late_run es (step s Unmount)) as (_ & H2 & H3).
Qed.

(* ===================================================================== *)
(** ** Failures of the session source *)
(* ===================================================================== *)

(** C5, as the specification words it, fails: when the fetch promise
    rejects, [then] has no rejection handler, nothing runs, and with no push
    notification the store is still Unknown. *)
Lemma rejected_fetch_stays_unknown :
  session_value (run fresh [FetchSettled (Rejected "network error")]) = Unknown
  ∧ resolved (run fresh [FetchSettled (Rejected "network error")]) = false.
Proof. split; reflexivity. Qed.

(** C5 (amended): a failure the provider reports inside its response (an
    [error] next to an absent user) resolves the store to Absent, because
    [getUser] ignores [error].  A rejection of the fetch promise runs no
    callback: state cells and sink are left as they were, and a store that
    has had no push notification stays Unknown. *)
Theorem fetch_failure_outcomes (s : Store) (e err : string) :
  session_value
    (run fresh [FetchSettled (Fulfilled {| data_user := None;
                                           error := Some err |})]) = Absent
  ∧ state (step s (FetchSettled (Rejected e))) = state s
  ∧ sink (step s (FetchSettled (Rejected e))) = sink s
  ∧ session_value (run fresh [FetchSettled (Rejected e)]) = Unknown.
Proof.
  split; [reflexivity|]. rewrite step_fetch_rejected. by repeat split.
Qed.

(** C7, as the specification words it, fails: when opening the subscription
    throws, nothing catches the exception and it leaves the mount effect. *)
Lemma subscribe_failure_escapes_effect :
  (mount (failing "subscribe failed")).1 = Threw "subscribe failed"
  ∧ crashed (mount (failing "subscribe failed")).1 = true.
Proof. split; reflexivity. Qed.

(** C7 (amended): when opening the push subscription throws, the exception
    leaves the mount effect uncaught and React unmounts the provider.  No
    subscription is ever held, so no push notification is ever handled, and
    the state is never written: it stays Unknown whatever arrives.  The fetch
    continuation was registered before the attempt and still runs when the
    fetch fulfils; all it does is call [identify] if an identity is carried. *)
Theorem subscribe_failure_degraded (e : string) (es : list event) :
  let o := mount (failing e) in
  o.1 = Threw e
  ∧ subscription (run o.2 es) = false
  ∧ state (run o.2 es) = {| user := None; isLoading := true |}
  ∧ session_value (run o.2 es) = Unknown
  ∧ sink (run o.2 es) = late_fetch_dispatch es.
Proof.
  cbn zeta. split; [reflexivity|].
  destruct (late_run es (mount (failing e)).2) as (H1 & H2 & H3);
    [reflexivity|].
  split; [done|]. split; [by rewrite H2|].
  split; [unfold session_value; by rewrite H2|]. by rewrite H3.
Qed.

(* ===================================================================== *)
(** ** Resolution is permanent *)
(* ===================================================================== *)

(** C6: once the first completion (fetch result or push notification) has
    been handled, [resolved] is true, and it stays true whatever events
    follow; the value never returns to Unknown. *)
Theorem resolved_is_permanent (c : completion) (es : list event) :
  resolved (run fresh (deliver c :: es)) = true
  ∧ session_value (run fresh (deliver c :: es)) ≠ Unknown.
Proof.
  assert (resolved (run fresh (deliver c :: es)) = true) as Hr.
  { cbn [run foldl]. apply resolved_run, resolved_first_completion. }
  split; [done|]. by apply resolved_not_unknown.
Qed.

(* ===================================================================== *)
(** ** Traits, null pushes, readers without a provider *)
(* ===================================================================== *)

(** C8: every completion that carries an identity and reaches its callback
    (a fetch result while the continuation waits, a push while the
    subscription is held) calls [identify] with the identity's id and with
    traits whose email is the identity's email and whose name is [full_name]
    when present and truthy, and [name] (possibly undefined) otherwise. *)
Theorem identify_traits (s : Store) (c : completion) (u : User) :
  identity_of c = Some u →
  handled s c = true →
  sink (step s (deliver c))
  = sink s ++ [identify (id u) {| traits_email := email u;
                                  traits_name := spec_name u |}].
Proof.
  intros Hu Hh. change (sink (step s (deliver c))
                        = sink s ++ [identify (id u) (spec_traits u)]).
  rewrite <- traits_of_spec.
  destruct c as [r|session]; cbn [deliver identity_of handled] in *.
  - rewrite step_fetch_fulfilled by done. cbn. by rewrite Hu.
  - rewrite step_push by done. cbn. unfold push_dispatch. by rewrite Hu.
Qed.

Lemma identify_traits_witness :
  sink (step (run fresh [FetchSettled (Fulfilled no_user)])
             (deliver (PushNotification (signed_in bob))))
  = sink (run fresh [FetchSettled (Fulfilled no_user)])
    ++ [identify (id bob) {| traits_email := email bob;
                             traits_name := spec_name bob |}].
Proof.
  apply (identify_traits (run fresh [FetchSettled (Fulfilled no_user)])
           (PushNotification (signed_in bob)) bob); reflexivity.
Defined.

(** C9: while the subscription is held, every push notification without an
    identity calls [reset], whatever the store held before; two in a row
    make two [reset] calls. *)
Theorem null_push_always_resets (s : Store) :
  subscription s = true →
  sink (step s (AuthStateChange None)) = sink s ++ [reset]
  ∧ sink (run s [AuthStateChange None; AuthStateChange None])
    = sink s ++ [reset; reset].
Proof.
  intros Hsub. split.
  - by rewrite step_push.
  - apply (run_pushes [None; None] s Hsub).
Qed.

Lemma null_push_always_resets_witness :
  subscription fresh = true
  ∧ sink (run fresh [AuthStateChange None; AuthStateChange None])
    = sink fresh ++ [reset; reset].
Proof.
  split; [reflexivity|].
  apply (null_push_always_resets fresh). reflexivity.
Defined.

(** C10: a reader calling [useAuth] with no enclosing [AuthProvider] gets
    the context default: identity null and resolved false. *)
Theorem useAuth_without_provider :
  useAuth [] = {| user := None; isLoading := true |}
  ∧ user (useAuth []) = None
  ∧ ctx_resolved (useAuth []) = false.
Proof. repeat split. Qed.

(* ===================================================================== *)
(** ** The request wrappers: origin, redirect target, error reporting *)
(* ===================================================================== *)

#[local] Set Warnings "-clear-no-such-hyp".

Lemma truthy_string_Some (o : option string) (s : string) :
  truthy_string o = Some s ↔ o = Some s ∧ s ≠ "".
Proof.
  unfold truthy_string. destruct o as [t|]; [|naive_solver].
  destruct (String.eqb_spec t ""); naive_solver.
Qed.

Lemma truthy_string_None (o : option string) :
  truthy_string o = None ↔ o = None ∨ o = Some "".
Proof.
  unfold truthy_string. destruct o as [t|]; [|naive_solver].
  destruct (String.eqb_spec t ""); naive_solver.
Qed.

Lemma append_callback_nonempty (origin : string) :
  String.append origin "/auth/callback" ≠ "".
Proof. by destruct origin. Qed.

(** X1: [getSiteOrigin] throws exactly when the site URL variable is unset or
    empty and there is no [window]: on the server without configuration. *)
Theorem getSiteOrigin_throws_iff (env : Env) :
  crashed (getSiteOrigin env) = true
  ↔ truthy_string (NEXT_PUBLIC_SITE_URL env) = None
    ∧ window_location_origin env = None.
Proof.
  unfold getSiteOrigin.
  destruct (truthy_string (NEXT_PUBLIC_SITE_URL env)) as [url|]; cbn;
    [naive_solver|].
  destruct (window_location_origin env); cbn; naive_solver.
Qed.

(** X2: An empty site URL variable is treated as unset: as long as the window's
    own origin is not empty, [getSiteOrigin] never returns an empty string,
    and a non-empty variable wins over the window. *)
Theorem getSiteOrigin_never_empty (env : Env) (o : string) :
  getSiteOrigin env = Returned o →
  window_location_origin env ≠ Some "" →
  o ≠ ""
  ∧ (∀ url, truthy_string (NEXT_PUBLIC_SITE_URL env) = Some url → o = url).
Proof.
  unfold getSiteOrigin. intros Hret Hwin.
  destruct (truthy_string (NEXT_PUBLIC_SITE_URL env)) as [url|] eqn:Hurl.
  - apply truthy_string_Some in Hurl as [_ Hne]. naive_solver.
  - destruct (window_location_origin env) as [origin|]; naive_solver.
Qed.

Lemma getSiteOrigin_never_empty_witness :
  getSiteOrigin {| NEXT_PUBLIC_SITE_URL := Some "";
                   window_location_origin := Some "http://localhost:3000" |}
  = Returned "http://localhost:3000"
  ∧ "http://localhost:3000" ≠ "".
Proof.
  split; [reflexivity|].
  refine (proj1 (getSiteOrigin_never_empty
                   {| NEXT_PUBLIC_SITE_URL := Some "";
                      window_location_origin := Some "http://localhost:3000" |}
                   "http://localhost:3000" _ _)).
  - reflexivity.
  - discriminate.
Defined.

(** X3: Whenever [signInWithGoogle] gets as far as building its request, the
    provider is "google" and the redirect target is never empty: it is the
    caller's [redirectTo] when that is a non-empty string, and the site origin
    followed by "/auth/callback" when it is absent or empty. *)
Theorem oauth_request_redirect
    (env : Env) (redirectTo : option string) (req : OAuthRequest) :
  oauth_request env redirectTo = Returned req →
  provider req = "google"
  ∧ options_redirectTo req ≠ ""
  ∧ (∀ r, truthy_string redirectTo = Some r → options_redirectTo req = r)
  ∧ (truthy_string redirectTo = None →
     ∃ origin, getSiteOrigin env = Returned origin
               ∧ options_redirectTo req = String.append origin "/auth/callback").
Proof.
  unfold oauth_request. intros Hreq.
  destruct (getSiteOrigin env) as [origin|e]; [|done].
  injection Hreq as <-. cbn. unfold redirect_target.
  destruct (truthy_string redirectTo) as [r|] eqn:Hr.
  - apply truthy_string_Some in Hr as [_ Hne]. naive_solver.
  - split; [done|]. split; [apply append_callback_nonempty|]. naive_solver.
Qed.

Lemma oauth_request_redirect_witness :
  options_redirectTo
    {| provider := "google";
       options_redirectTo := "http://localhost:3000/auth/callback" |} ≠ "".
Proof.
  refine (proj1 (proj2 (oauth_request_redirect browser (Some "") _ _))).
  reflexivity.
Defined.

(** X4: [signInWithGoogle] evaluates [getSiteOrigin()] before it looks at
    [redirectTo]: where that throws, the call rejects with the same error,
    logs nothing and never reaches the auth client, even when the caller
    supplied a redirect target. *)
Theorem signInWithGoogle_needs_origin {D : Type}
    (env : Env) (redirectTo : option string)
    (signInWithOAuth : OAuthRequest → settled (AuthResponse D)) :
  truthy_string (NEXT_PUBLIC_SITE_URL env) = None →
  window_location_origin env = None →
  signInWithGoogle env redirectTo signInWithOAuth
  = {| console_error := []; result := Rejected ReferenceError |}.
Proof.
  intros Hurl Hwin. unfold signInWithGoogle, oauth_request, getSiteOrigin.
  by rewrite Hurl, Hwin.
Qed.

Lemma signInWithGoogle_needs_origin_witness :
  signInWithGoogle server (Some "https://saga.example/welcome")
    (λ _, Fulfilled {| resp_data := tt; resp_error := None |})
  = {| console_error := []; result := Rejected ReferenceError |}.
Proof.
  apply (signInWithGoogle_needs_origin server); reflexivity.
Defined.

(** X5: [signInWithGoogle] fulfils exactly when the request could be built, the
    auth client's promise fulfilled and the response carried no error; it then
    returns the response's data unchanged. *)
Theorem signInWithGoogle_fulfils_iff {D : Type}
    (env : Env) (redirectTo : option string)
    (signInWithOAuth : OAuthRequest → settled (AuthResponse D)) (d : D) :
  result (signInWithGoogle env redirectTo signInWithOAuth) = Fulfilled d
  ↔ ∃ req resp, oauth_request env redirectTo = Returned req
                ∧ signInWithOAuth req = Fulfilled resp
                ∧ resp_error resp = None
                ∧ resp_data resp = d.
Proof.
  unfold signInWithGoogle.
  destruct (oauth_request env redirectTo) as [req|e]; cbn; [|naive_solver].
  destruct (signInWithOAuth req) as [resp|e] eqn:Hf; cbn.
  - destruct (resp_error resp) as [err|] eqn:He; cbn.
    + split; [done|]. intros (req' & resp' & [= <-] & Hf' & He' & _).
      congruence.
    + split.
      * intros [= <-]. by exists req, resp.
      * intros (req' & resp' & [= <-] & Hf' & _ & Hd). congruence.
  - split; [done|]. intros (req' & resp' & [= <-] & Hf' & _). congruence.
Qed.


(** X7: A failure the auth client reports inside its response makes [signOut]
    reject, but not [getUser] or [getSession]: those two reject only when the
    client's promise itself rejects, and otherwise pass the data on. *)
Theorem reported_errors_asymmetry
    (out : settled (AuthResponse unit))
    (usr : settled UserResponse)
    (ses : settled (AuthResponse (option Session))) :
  ((∃ e, result (signOut out) = Rejected e)
   ↔ (∃ e, out = Rejected e)
     ∨ (∃ resp err, out = Fulfilled resp ∧ resp_error resp = Some err))
  ∧ ((∃ e, getUser usr = Rejected e) ↔ ∃ e, usr = Rejected e)
  ∧ ((∃ e, getSession ses = Rejected e) ↔ ∃ e, ses = Rejected e).
Proof.
  split; [|split].
  - unfold signOut. destruct out as [resp|e]; [|naive_solver].
    destruct (resp_error resp) as [err|] eqn:He; cbn; naive_solver.
  - destruct usr; naive_solver.
  - destruct ses; naive_solver.
Qed.

(* ===================================================================== *)
(** ** The PostHog provider *)
(* ===================================================================== *)

(** X9: The effect of [PostHogProvider] either does nothing, or calls
    [posthog.init] exactly once and exposes [window.posthog].  It initialises
    only when there is a [window] and the key variable is a non-empty string,
    and the [api_host] it passes is never empty. *)
Theorem PostHogProvider_init_guard (env : PostHogEnv) :
  (posthog_calls (PostHogProvider_effect env) = []
   ∧ window_posthog (PostHogProvider_effect env) = false
   ∧ (has_window env = false
      ∨ truthy_string (NEXT_PUBLIC_POSTHOG_KEY env) = None))
  ∨ (∃ key cfg,
       posthog_calls (PostHogProvider_effect env) = [ph_init key cfg]
       ∧ window_posthog (PostHogProvider_effect env) = true
       ∧ has_window env = true
       ∧ NEXT_PUBLIC_POSTHOG_KEY env = Some key
       ∧ key ≠ ""
       ∧ api_host cfg ≠ "").
Proof.
  unfold PostHogProvider_effect.
  destruct (has_window env); [|left; naive_solver].
  destruct (truthy_string (NEXT_PUBLIC_POSTHOG_KEY env)) as [key|] eqn:Hk;
    [|left; naive_solver].
  apply truthy_string_Some in Hk as [Hk Hne].
  right. eexists _, _. repeat split; try done. cbn. unfold posthog_host.
  destruct (truthy_string (NEXT_PUBLIC_POSTHOG_HOST env)) as [h|] eqn:Hh.
  - by apply truthy_string_Some in Hh as [_ ?].
  - done.
Qed.

(* ===================================================================== *)
(** ** Invariants of the store over arbitrary event sequences *)
(* ===================================================================== *)

Lemma fetch_pending_step (s : Store) (e : event) :
  fetch_pending (step s e)
  = match e with
    | FetchSettled _ => false
    | _ => fetch_pending s
    end.
Proof.
  destruct e as [[r|err]|session|].
  - destruct (fetch_pending s) eqn:Hp.
    + by rewrite step_fetch_fulfilled.
    + by rewrite step_fetch_settled_twice.
  - by rewrite step_fetch_rejected.
  - destruct (subscription s) eqn:Hsub.
    + by rewrite step_push.
    + by rewrite step_push_released.
  - done.
Qed.

Lemma subscription_step (s : Store) (e : event) :
  subscription (step s e)
  = match e with
    | Unmount => false
    | _ => subscription s
    end.
Proof.
  destruct e as [[r|err]|session|].
  - apply (subscription_step_completion s (FetchResult r)).
  - by rewrite step_fetch_rejected.
  - apply (subscription_step_completion s (PushNotification session)).
  - done.
Qed.

Lemma count_reset_app (cs ds : list analytics_call) :
  count_reset (cs ++ ds) = count_reset cs + count_reset ds.
Proof. unfold count_reset. by rewrite List.filter_app, length_app. Qed.

Lemma count_reset_fetch_dispatch (u : option User) :
  count_reset (fetch_dispatch u) = 0.
Proof. by destruct u. Qed.

Lemma length_fetch_dispatch (u : option User) :
  (length (fetch_dispatch u) ≤ 1)%nat.
Proof. destruct u; cbn; lia. Qed.

Lemma count_events_cons (p : event → bool) (e : event) (es : list event) :
  count_events p (e :: es) = (if p e then 1 else 0) + count_events p es.
Proof. unfold count_events. cbn. by destruct (p e). Qed.

Lemma run_cons (s : Store) (e : event) (es : list event) :
  run s (e :: es) = run (step s e) es.
Proof. reflexivity. Qed.

Lemma step_inert (s : Store) (e : event) :
  fetch_pending s = false → subscription s = false → step s e = s.
Proof.
  intros Hp Hsub. destruct e as [r|session|].
  - by apply step_fetch_settled_twice.
  - by apply step_push_released.
  - rewrite step_unmount. destruct s; cbn in *. by subst.
Qed.


Lemma reset_step (s : Store) (e : event) :
  subscription s = true →
  count_reset (sink (step s e))
  = count_reset (sink s) + (if is_null_push e then 1 else 0).
Proof.
  intros Hsub. rewrite sink_step, Hsub, count_reset_app. f_equal.
  destruct e as [[r|err]|[ss|]|]; try reflexivity.
  cbn [dispatched is_null_push].
  destruct (fetch_pending s); [apply count_reset_fetch_dispatch|done].
Qed.

Lemma released_step (s : Store) (e : event) :
  subscription s = false →
  subscription (step s e) = false
  ∧ count_reset (sink (step s e)) = count_reset (sink s)
  ∧ (length (sink (step s e)) + (if fetch_pending (step s e) then 1 else 0)
     ≤ length (sink s) + (if fetch_pending s then 1 else 0))%nat.
Proof.
  intros Hsub. destruct e as [[r|err]|session|].
  - destruct (fetch_pending s) eqn:Hp.
    + rewrite step_fetch_fulfilled by done.
      cbn [subscription sink fetch_pending].
      rewrite count_reset_app, count_reset_fetch_dispatch, length_app.
      pose proof (length_fetch_dispatch (data_user r)).
      repeat split; [done|lia|lia].
    + rewrite step_fetch_settled_twice by done. rewrite Hp.
      repeat split; [done|lia].
  - rewrite step_fetch_rejected. cbn [subscription sink fetch_pending].
    repeat split; [done|]. destruct (fetch_pending s); lia.
  - rewrite step_push_released by done. repeat split; [done|lia].
  - rewrite step_unmount. cbn [subscription sink fetch_pending].
    repeat split; lia.
Qed.

Lemma released_run (es : list event) (s : Store) :
  subscription s = false →
  subscription (run s es) = false
  ∧ count_reset (sink (run s es)) = count_reset (sink s)
  ∧ (length (sink (run s es))
     ≤ length (sink s) + (if fetch_pending s then 1 else 0))%nat.
Proof.
  revert s. induction es as [|e es IH]; intros s Hsub.
  - cbn. repeat split; [done|lia].
  - rewrite run_cons.
    destruct (released_step s e Hsub) as (Hs & Hc & Hl).
    destruct (IH (step s e) Hs) as (Hs' & Hc' & Hl').
    repeat split; [done|congruence|].
    destruct (fetch_pending (step s e)); lia.
Qed.



(** X11: The sink receives at most one call per push notification, plus at most
    one for the one-shot fetch if it is still outstanding. *)
Theorem sink_calls_bounded (s : Store) (es : list event) :
  (length (sink (run s es))
   ≤ length (sink s) + count_events is_push es
     + (if fetch_pending s then 1 else 0))%nat.
Proof.
  revert s. induction es as [|e es IH]; intros s.
  - cbn. lia.
  - rewrite run_cons, count_events_cons. specialize (IH (step s e)).
    rewrite fetch_pending_step, sink_step, length_app in IH.
    destruct e as [[r|err]|session|]; cbn in *.
    + destruct (fetch_pending s); cbn in *.
      * pose proof (length_fetch_dispatch (data_user r)). lia.
      * lia.
    + destruct (fetch_pending s); lia.
    + destruct (subscription s); cbn in *; lia.
    + lia.
Qed.

(** X12: As long as the subscription is held and the component is not unmounted,
    [analytics.reset] is called exactly once per push notification that
    carries no identity; the fetch never adds a [reset]. *)
Theorem resets_count_null_pushes (s : Store) (es : list event) :
  subscription s = true →
  count_events is_unmount es = 0 →
  count_reset (sink (run s es))
  = count_reset (sink s) + count_events is_null_push es.
Proof.
  revert s. induction es as [|e es IH]; intros s Hsub Hun.
  - cbn. unfold count_events. cbn. lia.
  - rewrite count_events_cons in Hun.
    rewrite run_cons, count_events_cons, IH.
    + rewrite reset_step by done. lia.
    + rewrite subscription_step. by destruct e.
    + destruct (is_unmount e); [discriminate|done].
Qed.

Lemma resets_count_null_pushes_witness :
  count_reset (sink (run fresh [AuthStateChange None;
                                FetchSettled (Fulfilled no_user);
                                AuthStateChange (signed_in u1);
                                AuthStateChange None]))
  = count_reset (sink fresh) + 2.
Proof.
  apply (resets_count_null_pushes fresh
           [AuthStateChange None; FetchSettled (Fulfilled no_user);
            AuthStateChange (signed_in u1); AuthStateChange None]);
    reflexivity.
Defined.

(** X13: Once no subscription is held, because it failed to open or was
    released, it never comes back: whatever events follow, [analytics.reset]
    is never called again and at most one more sink call is made, by the
    fetch if it is still outstanding. *)
Theorem without_subscription_no_reset (s : Store) (es : list event) :
  subscription s = false →
  subscription (run s es) = false
  ∧ count_reset (sink (run s es)) = count_reset (sink s)
  ∧ (length (sink (run s es))
     ≤ length (sink s) + (if fetch_pending s then 1 else 0))%nat.
Proof. apply released_run. Qed.

Lemma without_subscription_no_reset_witness :
  subscription (mount (failing "refused")).2 = false
  ∧ count_reset (sink (run (mount (failing "refused")).2
                           [AuthStateChange None;
                            FetchSettled (Fulfilled (found alice))]))
    = count_reset (sink (mount (failing "refused")).2).
Proof.
  split; [reflexivity|].
  apply (without_subscription_no_reset (mount (failing "refused")).2
           [AuthStateChange None; FetchSettled (Fulfilled (found alice))]).
  reflexivity.
Defined.

(** X14: After the fetch has settled and the subscription has been released the
    store is inert: no event changes its state cells, its registrations or
    its sink. *)
Theorem settled_and_released_is_inert (s : Store) (es : list event) :
  fetch_pending s = false →
  subscription s = false →
  run s es = s.
Proof.
  intros Hp Hsub. induction es as [|e es IH]; [done|].
  by rewrite run_cons, step_inert.
Qed.

Lemma settled_and_released_is_inert_witness :
  run (run fresh [FetchSettled (Fulfilled no_user); Unmount])
      [AuthStateChange (signed_in alice); FetchSettled (Fulfilled (found alice));
       Unmount]
  = run fresh [FetchSettled (Fulfilled no_user); Unmount].
Proof.
  apply (settled_and_released_is_inert
           (run fresh [FetchSettled (Fulfilled no_user); Unmount]));
    reflexivity.
Defined.

(* ===================================================================== *)
(** ** State, sink and readers after a push *)
(* ===================================================================== *)

(** X15: After every push notification handled while the subscription is held,
    the last sink call agrees with the [user] cell: [identify] for the
    identity now stored, [reset] if none is stored. *)
Theorem push_keeps_sink_in_step
    (s : Store) (es : list event) (session : option Session) :
  subscription (run s es) = true →
  let s' := run s (es ++ [AuthStateChange session]) in
  last (sink s') = Some (matching_call (user (state s'))).
Proof.
  intros Hsub. cbn zeta. rewrite run_app. cbn [run foldl].
  rewrite step_push by done. cbn [sink state user].
  rewrite last_snoc. unfold push_dispatch, matching_call.
  by destruct (forwarded_user session).
Qed.

Lemma push_keeps_sink_in_step_witness :
  last (sink (run fresh ([FetchSettled (Fulfilled (found alice))]
                         ++ [AuthStateChange None])))
  = Some (matching_call
            (user (state (run fresh ([FetchSettled (Fulfilled (found alice))]
                                     ++ [AuthStateChange None]))))).
Proof.
  apply (push_keeps_sink_in_step fresh
           [FetchSettled (Fulfilled (found alice))] None).
  reflexivity.
Defined.

(** X16: A reader under the provider sees the most recent push notification:
    after any non-empty run of pushes on a store holding its subscription,
    [useAuth] returns the identity the last one carried, with [isLoading]
    false, whatever providers lie further out. *)
Theorem reader_sees_last_push
    (s : Store) (ps : list (option Session)) (p : option Session)
    (outer : list AuthContextType) :
  subscription s = true →
  last ps = Some p →
  useAuth (provided (run s (AuthStateChange <$> ps)) :: outer)
  = {| user := forwarded_user p; isLoading := false |}.
Proof.
  intros Hsub [ps' ->]%last_Some.
  rewrite fmap_app, run_app. cbn [fmap list_fmap run foldl].
  destruct (run_pushes ps' s Hsub) as [_ Hsub'].
  by rewrite step_push.
Qed.

Lemma reader_sees_last_push_witness :
  useAuth (provided (run fresh (AuthStateChange
                                  <$> [None; signed_in u1; signed_in alice]))
           :: [AuthContext])
  = {| user := forwarded_user (signed_in alice); isLoading := false |}.
Proof.
  apply (reader_sees_last_push fresh [None; signed_in u1; signed_in alice]);
    reflexivity.
Defined.

(** X17: A fetch result and a push notification that carry the same value leave
    the same state cells.  With an identity they also make the same sink
    call; without one the push makes exactly one call more, a [reset]. *)
Theorem fetch_and_push_differ_by_reset
    (s : Store) (r : UserResponse) (session : option Session) :
  fetch_pending s = true →
  subscription s = true →
  data_user r = forwarded_user session →
  state (step s (FetchSettled (Fulfilled r)))
  = state (step s (AuthStateChange session))
  ∧ sink (step s (AuthStateChange session))
    = match data_user r with
      | Some _ => sink (step s (FetchSettled (Fulfilled r)))
      | None => sink (step s (FetchSettled (Fulfilled r))) ++ [reset]
      end.
Proof.
  intros Hp Hsub Hsame.
  rewrite step_fetch_fulfilled, step_push by done.
  cbn [state sink]. unfold push_dispatch. rewrite Hsame, Hsub. split; [done|].
  destruct (forwarded_user session) as [u|]; cbn; [done|].
  by rewrite app_nil_r.
Qed.

Lemma fetch_and_push_differ_by_reset_witness :
  sink (step fresh (AuthStateChange None))
  = sink (step fresh (FetchSettled (Fulfilled no_user))) ++ [reset].
Proof.
  apply (fetch_and_push_differ_by_reset fresh no_user None); reflexivity.
Defined.

(** X18: The [name] trait is one of the two metadata fields, and it is truthy
    exactly when [full_name] or [name] is: a missing, empty or otherwise
    falsy [full_name] falls through to [name]. *)
Theorem name_trait_truthiness (u : User) :
  truthy (traits_name (traits_of u))
  = truthy (opt_get (user_metadata u) "full_name")
    || truthy (opt_get (user_metadata u) "name")
  ∧ (traits_name (traits_of u) = opt_get (user_metadata u) "full_name"
     ∨ traits_name (traits_of u) = opt_get (user_metadata u) "name")
  ∧ (user_metadata u = None → traits_name (traits_of u) = JUndefined).
Proof.
  unfold traits_of, js_or. cbn [traits_name].
  destruct (truthy (opt_get (user_metadata u) "full_name")) eqn:Hf.
  - split; [by rewrite Hf|]. split; [by left|].
    intros Hmd. rewrite Hmd in Hf. discriminate.
  - split; [done|]. split; [by right|]. by intros ->.
Qed.

Lemma name_trait_truthiness_witness :
  truthy (traits_name (traits_of u1))
  = truthy (opt_get (user_metadata u1) "full_name")
    || truthy (opt_get (user_metadata u1) "name")
  ∧ traits_name (traits_of u1) = JUndefined.
Proof.
  split.
  - apply (name_trait_truthiness u1).
  - apply (name_trait_truthiness u1). reflexivity.
Defined.
